(** * A shallow embedding of [library.py]: the book-inventory data layer

    The development models class [LibraryDB] of [src/library.py]: the
    [books] table, the CRUD statements, the two lending transitions, the
    CSV import and export, and the search query.

    Modelling conventions.
    - The [books] table is a finite map from the primary key [id] to the
      six remaining columns; [sqlite_sequence] (the AUTOINCREMENT
      counter) is a second component of the store.
    - Columns are typed as every caller in [library.py] uses them:
      [title], [author], [isbn] and [status] hold text, [year] holds an
      integer or NULL, [issued_to] holds text or NULL.  Integers are
      unbounded, as in Python.
    - Text is [string]; a character of the text is one [ascii], read
      as a code point below 256.
    - A method is a function from the store to an [outcome]: a returned
      value or a raised exception, each with the store as committed at
      that point.
    - The library calls are modelled by what they do on these data: the
      SQL statements as operations on the map, [LIKE] as SQLite matches
      it, [csv.writer], [csv.reader] and [csv.DictReader] in the excel
      dialect, [io.TextIOWrapper] by its translation of newlines.  The
      streams of import and export are the decoded text; the UTF-8
      layer and the field size limit of the reader are left out. *)

From Stdlib Require Import ZArith Ascii String List Lia Bool.
From Stdlib Require Import DecimalString DecimalZ DecimalPos DecimalFacts.
From stdpp Require Import base option list strings gmap fin_maps sorting.

Local Open Scope Z_scope.
Local Open Scope string_scope.
Local Open Scope list_scope.

(** ** Python values and conversions *)

(** The dynamically typed arguments that reach [_to_int]. *)
Inductive pyval :=
  | PyNone
  | PyInt (z : Z)
  | PyStr (s : string).

(** Characters. *)
Definition chars (s : string) : list ascii := list_ascii_of_string s.
Definition text (l : list ascii) : string := string_of_list_ascii l.

(** [str.isspace] on the code points below 256: TAB, LF, VT, FF, CR,
    FS, GS, RS, US, SPACE, NEL and NBSP. *)
Definition is_space (c : ascii) : bool :=
  let n := N_of_ascii c in
  ((9 <=? n)%N && (n <=? 13)%N) || ((28 <=? n)%N && (n <=? 32)%N) ||
  (n =? 133)%N || (n =? 160)%N.

Fixpoint lstrip (l : list ascii) : list ascii :=
  match l with
  | c :: l' => if is_space c then lstrip l' else l
  | [] => []
  end.

Definition rstrip (l : list ascii) : list ascii := rev (lstrip (rev l)).

(** [str.strip()]. *)
Definition strip (s : string) : string := text (rstrip (lstrip (chars s))).

Definition is_digit (c : ascii) : bool :=
  let n := N_of_ascii c in (48 <=? n)%N && (n <=? 57)%N.

Definition digit_value (c : ascii) : Z := Z.of_N (N_of_ascii c) - 48.

(** The digits of a Python integer literal in base ten: decimal digits,
    with single underscores allowed between two digits.  [prev] tells
    whether the previous character was a digit. *)
Fixpoint digits_value (acc : Z) (prev : bool) (l : list ascii) : option Z :=
  match l with
  | [] => if prev then Some acc else None
  | c :: l' =>
      if is_digit c then digits_value (10 * acc + digit_value c) true l'
      else if Ascii.eqb c "_" && prev then digits_value acc false l'
      else None
  end.

(** An optional sign and the digits. *)
Definition signed_value (l : list ascii) : option Z :=
  match l with
  | "-"%char :: l' => Z.opp <$> digits_value 0 false l'
  | "+"%char :: l' => digits_value 0 false l'
  | _ => digits_value 0 false l
  end.

(** [int(s)] for a [str]: surrounding whitespace is dropped, then an
    optional sign and the digits; [None] stands for [ValueError]. *)
Definition int_of_str (s : string) : option Z :=
  signed_value (rstrip (lstrip (chars s))).

(** [str(n)] for an [int]. *)
Definition str_of_int (z : Z) : string := NilZero.string_of_int (Z.to_int z).

(** [LibraryDB._to_int]: [int(val)], any exception turned into [None]. *)
Definition _to_int (val : pyval) : option Z :=
  match val with
  | PyNone => None
  | PyInt z => Some z
  | PyStr s => int_of_str s
  end.

(** [year or None]: the integer 0 is falsy. *)
Definition year_or_none (year : option Z) : option Z :=
  match year with
  | Some 0 => None
  | _ => year
  end.

(** [status or 'available']: [None] and the empty text are falsy. *)
Definition status_or_available (status : option string) : string :=
  match status with
  | None | Some "" => "available"
  | Some s => s
  end.

(** ** The store *)

(** The columns of a row of [books] other than the key. *)
Record book := Book {
  title : string;
  author : string;
  year : option Z;
  isbn : string;
  status : string;
  issued_to : option string
}.

(** A fetched row: [(id, title, author, year, isbn, status, issued_to)]. *)
Definition row : Type := Z * book.

Record store := Store {
  books : gmap Z book;
  sqlite_sequence : Z
}.

Definition empty_store : store := Store ∅ 0.

Global Instance book_eq_dec : EqDecision book.
Proof. solve_decision. Defined.

(** ** Exceptions and the method monad *)

Inductive exn :=
  | ValueError (msg : string)
  | AttributeError (msg : string)
  | CsvError (msg : string).

Definition NotFound : exn := ValueError "Book not found".
Definition AlreadyIssued : exn := ValueError "Book already issued".
Definition NotIssued : exn := ValueError "Book is not issued".

Inductive outcome (A : Type) :=
  | Ok (a : A) (st : store)
  | Raise (e : exn) (st : store).
Arguments Ok {A} a st.
Arguments Raise {A} e st.

Definition M (A : Type) : Type := store -> outcome A.

Definition ret {A} (a : A) : M A := fun st => Ok a st.
Definition raise {A} (e : exn) : M A := fun st => Raise e st.
Definition bind {A B} (c : M A) (k : A -> M B) : M B :=
  fun st => match c st with
            | Ok a st' => k a st'
            | Raise e st' => Raise e st'
            end.
Definition get_store : M store := fun st => Ok st st.
Definition put_store (st' : store) : M unit := fun _ => Ok tt st'.

Notation "'do' x <- c ; k" := (bind c (fun x => k))
  (at level 10, x name, c at level 100, k at level 200).
Notation "c ;; k" := (bind c (fun _ => k))
  (at level 100, k at level 200, right associativity).

(** The store an outcome leaves behind. *)
Definition final_store {A} (o : outcome A) : store :=
  match o with Ok _ st => st | Raise _ st => st end.

(** ** Record Store: CRUD *)

(** The largest key present, or [d] when that is larger. *)
Definition max_key (d : Z) (m : gmap Z book) : Z :=
  foldr Z.max d (map fst (map_to_list m)).

(** The key AUTOINCREMENT gives the next row: one more than the largest
    key the table holds or has ever held. *)
Definition next_id (st : store) : Z := 1 + max_key (sqlite_sequence st) (books st).

(** [INSERT INTO books (title, author, year, isbn) VALUES (?, ?, ?, ?)]:
    [status] takes its default, [issued_to] is NULL. *)
Definition sql_insert (t a : string) (y : option Z) (i : string) (st : store) : store :=
  let k := next_id st in
  Store (<[k := Book t a y i "available" None]> (books st)) k.

(** [UPDATE books SET title=?, ... WHERE id=?]. *)
Definition sql_update (k : Z) (b : book) (st : store) : store :=
  match books st !! k with
  | Some _ => Store (<[k := b]> (books st)) (sqlite_sequence st)
  | None => st
  end.

(** [DELETE FROM books WHERE id=?]. *)
Definition sql_delete (k : Z) (st : store) : store :=
  Store (delete k (books st)) (sqlite_sequence st).

(** [add_book]: returns [cur.lastrowid]. *)
Definition add_book (title author : string) (year : option Z) (isbn : string) : M Z :=
  do st <- get_store;
  put_store (sql_insert title author (year_or_none year) isbn st);;
  ret (next_id st).

Definition update_book (book_id : pyval) (title author : string) (year : option Z)
    (isbn : string) (status issued_to : option string) : M unit :=
  match _to_int book_id with
  | None => ret tt
  | Some k =>
      do st <- get_store;
      put_store (sql_update k
        (Book title author (year_or_none year) isbn (status_or_available status) issued_to) st)
  end.

Definition delete_book (book_id : pyval) : M unit :=
  match _to_int book_id with
  | None => ret tt
  | Some k => do st <- get_store; put_store (sql_delete k st)
  end.

Definition get_book (book_id : pyval) : M (option row) :=
  match _to_int book_id with
  | None => ret None
  | Some k => do st <- get_store; ret (pair k <$> books st !! k)
  end.

(** [ORDER BY id]. *)
Definition id_le (r1 r2 : row) : Prop := r1.1 <= r2.1.

Global Instance id_le_dec : RelDecision id_le.
Proof. intros r1 r2. unfold id_le. apply _. Defined.

Definition order_by_id (rows : list row) : list row := merge_sort id_le rows.

Definition select_all (st : store) : list row := order_by_id (map_to_list (books st)).

Definition list_all : M (list row) :=
  do st <- get_store; ret (select_all st).

(** ** Lending State Machine *)

Definition issue_book (book_id : pyval) (borrower : string) : M unit :=
  do book <- get_book book_id;
  match book with
  | None => raise NotFound
  | Some (k, b) =>
      if decide (status b = "issued") then raise AlreadyIssued
      else update_book (PyInt k) (title b) (author b) (year b) (isbn b)
             (Some "issued") (Some borrower)
  end.

Definition return_book (book_id : pyval) : M unit :=
  do book <- get_book book_id;
  match book with
  | None => raise NotFound
  | Some (k, b) =>
      if decide (status b = "available") then raise NotIssued
      else update_book (PyInt k) (title b) (author b) (year b) (isbn b)
             (Some "available") None
  end.

(** ** Search *)

(** ASCII case folding, as SQLite's [LIKE] does it. *)
Definition to_lower (c : ascii) : ascii :=
  let n := N_of_ascii c in
  if (65 <=? n)%N && (n <=? 90)%N then ascii_of_N (n + 32) else c.

Definition eq_nocase (c d : ascii) : bool := Ascii.eqb (to_lower c) (to_lower d).

(** [s LIKE p]: [%] stands for any run of characters, [_] for any one
    character, every other character for itself up to ASCII case. *)
Fixpoint like (p : list ascii) : list ascii -> bool :=
  match p with
  | [] => fun s => match s with [] => true | _ :: _ => false end
  | "%"%char :: p' =>
      fix any (s : list ascii) : bool :=
        like p' s || match s with [] => false | _ :: s' => any s' end
  | "_"%char :: p' =>
      fun s => match s with [] => false | _ :: s' => like p' s' end
  | c :: p' =>
      fun s => match s with [] => false | d :: s' => eq_nocase c d && like p' s' end
  end.

Inductive column := ColTitle | ColAuthor.

Definition column_of (c : column) (b : book) : string :=
  match c with ColTitle => title b | ColAuthor => author b end.

(** A conjunct [col LIKE ?] of the WHERE clause with its parameter. *)
Definition clause : Type := column * string.

Definition holds (cl : clause) (b : book) : bool :=
  like (chars cl.2) (chars (column_of cl.1 b)).

(** Truthiness of an optional text argument. *)
Definition truthy (o : option string) : option string :=
  match o with
  | None | Some "" => None
  | Some s => Some s
  end.

Definition search_clauses (title author : option string) : list clause :=
  match truthy title with Some t => [(ColTitle, "%" +:+ t +:+ "%")] | None => [] end ++
  match truthy author with Some a => [(ColAuthor, "%" +:+ a +:+ "%")] | None => [] end.

Definition select_where (cls : list clause) (st : store) : list row :=
  order_by_id (List.filter (fun r : row => forallb (fun cl => holds cl r.2) cls)
                 (map_to_list (books st))).

Definition search (title author : option string) : M (list row) :=
  do st <- get_store; ret (select_where (search_clauses title author) st).

(** ** Bulk Transfer Codec: the [csv] writer and reader (excel dialect) *)

Definition CR : ascii := ascii_of_N 13.
Definition LF : ascii := ascii_of_N 10.
Definition DQUOTE : ascii := ascii_of_N 34.
Definition COMMA : ascii := ","%char.

(** The characters that make the writer quote a field. *)
Definition special (c : ascii) : bool :=
  Ascii.eqb c COMMA || Ascii.eqb c DQUOTE || Ascii.eqb c CR || Ascii.eqb c LF.







(** The cells [export_csv_bytes] writes for a row; [x or ''] turns NULL
    and the integer 0 into the empty cell. *)
Definition export_cells (r : row) : list string :=
  [ str_of_int r.1;
    title r.2;
    author r.2;
    match year_or_none (year r.2) with Some y => str_of_int y | None => "" end;
    isbn r.2;
    status r.2;
    default "" (issued_to r.2) ].



(** Universal newlines, the default of [io.TextIOWrapper]: CR LF and a
    lone CR are read as LF. *)
Fixpoint translate_newlines (l : list ascii) : list ascii :=
  match l with
  | [] => []
  | c :: l' =>
      if Ascii.eqb c CR then
        LF :: match l' with
              | d :: l'' => if Ascii.eqb d LF then translate_newlines l''
                            else translate_newlines l'
              | [] => []
              end
      else c :: translate_newlines l'
  end.

(** The lines of a text, each with its final LF; [cur] is the line being
    collected. *)
Fixpoint split_lines (cur : list ascii) (l : list ascii) : list (list ascii) :=
  match l with
  | [] => match cur with [] => [] | _ => [cur] end
  | c :: l' =>
      if Ascii.eqb c LF then (cur ++ [c]) :: split_lines [] l'
      else split_lines (cur ++ [c]) l'
  end.

Definition readlines (s : string) : list (list ascii) :=
  split_lines [] (translate_newlines (chars s)).

Inductive parse_state :=
  | START_RECORD
  | START_FIELD
  | IN_FIELD
  | IN_QUOTED_FIELD
  | QUOTE_IN_QUOTED_FIELD
  | EAT_CRNL.

Global Instance parse_state_eq_dec : EqDecision parse_state.
Proof. solve_decision. Defined.

Record reader := Reader {
  state : parse_state;
  field : list ascii;
  fields : list string
}.

(** A character of the line, or the end of the line. *)
Inductive input := Ch (c : ascii) | EOL.

Definition is_newline (i : input) : bool :=
  match i with
  | Ch c => Ascii.eqb c LF || Ascii.eqb c CR
  | EOL => true
  end.

Definition parse_add_char (c : ascii) (st : parse_state) (r : reader) : reader :=
  Reader st (field r ++ [c]) (fields r).

Definition parse_save_field (st : parse_state) (r : reader) : reader :=
  Reader st [] (fields r ++ [text (field r)]).

Definition start_field (i : input) (r : reader) : reader :=
  match i with
  | EOL => parse_save_field START_RECORD r
  | Ch c =>
      if is_newline i then parse_save_field EAT_CRNL r
      else if Ascii.eqb c DQUOTE then Reader IN_QUOTED_FIELD (field r) (fields r)
      else if Ascii.eqb c COMMA then parse_save_field START_FIELD r
      else parse_add_char c IN_FIELD r
  end.

(** [parse_process_char] of the [_csv] module, for the excel dialect
    (no escape character, doubled quotes, not strict); [None] is
    [csv.Error]. *)
Definition parse_process_char (r : reader) (i : input) : option reader :=
  match state r with
  | START_RECORD =>
      match i with
      | EOL => Some r
      | Ch c =>
          if is_newline i then Some (Reader EAT_CRNL (field r) (fields r))
          else Some (start_field i r)
      end
  | START_FIELD => Some (start_field i r)
  | IN_FIELD =>
      match i with
      | EOL => Some (parse_save_field START_RECORD r)
      | Ch c =>
          if is_newline i then Some (parse_save_field EAT_CRNL r)
          else if Ascii.eqb c COMMA then Some (parse_save_field START_FIELD r)
          else Some (parse_add_char c IN_FIELD r)
      end
  | IN_QUOTED_FIELD =>
      match i with
      | EOL => Some r
      | Ch c =>
          if Ascii.eqb c DQUOTE then Some (Reader QUOTE_IN_QUOTED_FIELD (field r) (fields r))
          else Some (parse_add_char c IN_QUOTED_FIELD r)
      end
  | QUOTE_IN_QUOTED_FIELD =>
      match i with
      | EOL => Some (parse_save_field START_RECORD r)
      | Ch c =>
          if Ascii.eqb c DQUOTE then Some (parse_add_char c IN_QUOTED_FIELD r)
          else if Ascii.eqb c COMMA then Some (parse_save_field START_FIELD r)
          else if is_newline i then Some (parse_save_field EAT_CRNL r)
          else Some (parse_add_char c IN_FIELD r)
      end
  | EAT_CRNL =>
      match i with
      | EOL => Some (Reader START_RECORD (field r) (fields r))
      | Ch c => if is_newline i then Some r else None
      end
  end.

Fixpoint parse_chars (r : reader) (l : list ascii) : option reader :=
  match l with
  | [] => Some r
  | c :: l' => r' ← parse_process_char r (Ch c); parse_chars r' l'
  end.

(** One line: its characters, then the end of the line. *)
Definition parse_line (r : reader) (line : list ascii) : option reader :=
  r' ← parse_chars r line; parse_process_char r' EOL.

Definition parse_reset : reader := Reader START_RECORD [] [].

Definition csv_error : exn :=
  CsvError "new-line character seen in unquoted field".

Definition parsed : Type := list (list string) * option exn.

(** The input is exhausted: a record that is under way is returned as
    it stands. *)
Definition end_of_input (r : reader) : parsed :=
  if bool_decide (field r <> [] \/ state r = IN_QUOTED_FIELD)
  then ([fields (parse_save_field START_RECORD r)], None)
  else ([], None).

(** A line has been consumed: back at the start of a record the fields
    are returned and the parser is reset, otherwise the record goes on
    with the next line. *)
Definition end_of_line (r : reader) (continue : reader -> parsed) : parsed :=
  if decide (state r = START_RECORD)
  then let (rows, e) := continue parse_reset in (fields r :: rows, e)
  else continue r.

(** The records of [csv.reader] over the lines, and the error that ends
    the iteration if there is one. *)
Fixpoint reader_rows (r : reader) (lines : list (list ascii)) : parsed :=
  match lines with
  | [] => end_of_input r
  | line :: rest =>
      match parse_line r line with
      | None => ([], Some csv_error)
      | Some r' => end_of_line r' (fun r0 => reader_rows r0 rest)
      end
  end.

Definition csv_reader (s : string) : parsed :=
  reader_rows parse_reset (readlines s).

(** ** Bulk Transfer Codec: import and export *)

(** A row as [csv.DictReader] yields it: [dict(zip(fieldnames, row))],
    then [None] under the field names the row is too short for.  The
    entry under the key [None] that collects the cells beyond the header
    is never read by the import and is left out. *)
Definition dict_of_row (fieldnames cells : list string) : gmap string (option string) :=
  foldl (fun d k => <[k := None]> d)
    (foldl (fun d (kv : string * string) => <[kv.1 := Some kv.2]> d) ∅ (zip fieldnames cells))
    (drop (length cells) fieldnames).

Definition is_blank (cells : list string) : bool :=
  match cells with [] => true | _ :: _ => false end.

(** The first record gives the field names; records that are empty
    lists (blank lines) are passed over. *)
Definition dict_reader (rows : list (list string)) : list (gmap string (option string)) :=
  match rows with
  | [] => []
  | fieldnames :: data =>
      map (dict_of_row fieldnames) (List.filter (fun cells => negb (is_blank cells)) data)
  end.

Definition no_strip : exn :=
  AttributeError "'NoneType' object has no attribute 'strip'".

(** [r.get(key, '').strip()]. *)
Definition get_strip (r : gmap string (option string)) (key : string) : M string :=
  match default (Some "") (r !! key) with
  | Some s => ret (strip s)
  | None => raise no_strip
  end.

(** [int(year_raw) if year_raw else None], [ValueError] giving [None]. *)
Definition parse_year (year_raw : string) : option Z :=
  if decide (year_raw = "") then None else int_of_str year_raw.

(** The body of [for r in reader], with the count of rows added so far. *)
Fixpoint import_loop (rs : list (gmap string (option string))) (added : Z) : M Z :=
  match rs with
  | [] => ret added
  | r :: rs' =>
      do title <- get_strip r "title";
      if decide (title = "") then import_loop rs' added
      else
        do author <- get_strip r "author";
        do year_raw <- get_strip r "year";
        do isbn <- get_strip r "isbn";
        add_book title author (parse_year year_raw) isbn;;
        import_loop rs' (added + 1)
  end.

Definition import_csv_fileobj (fileobj : string) : M Z :=
  let (rows, err) := csv_reader fileobj in
  do added <- import_loop (dict_reader rows) 0;
  match err with
  | Some e => raise e
  | None => ret added
  end.

(** ** Two callers of [issue_book] at once *)

(** [issue_book] runs two statements, each on a connection of its own:
    the SELECT of [get_book] and the UPDATE of [update_book].  Nothing
    is held between the two, so the statements of another caller may
    run in between.  A call is modelled by where it stands. *)
Inductive issue_call :=
  | Calling (book_id : pyval) (borrower : string)
  | Fetched (book : option row) (borrower : string)
  | Returned
  | Raised (e : exn).

(** The next statement of a call, with the test that precedes it. *)
Definition issue_step (c : issue_call) (st : store) : issue_call * store :=
  match c with
  | Calling book_id who =>
      match get_book book_id st with
      | Ok book st' => (Fetched book who, st')
      | Raise e st' => (Raised e, st')
      end
  | Fetched None _ => (Raised NotFound, st)
  | Fetched (Some (k, b)) who =>
      if decide (status b = "issued") then (Raised AlreadyIssued, st)
      else
        match update_book (PyInt k) (title b) (author b) (year b) (isbn b)
                (Some "issued") (Some who) st with
        | Ok _ st' => (Returned, st')
        | Raise e st' => (Raised e, st')
        end
  | Returned | Raised _ => (c, st)
  end.

(** How a finished call ended. *)
Definition outcome_of (c : issue_call) (st : store) : option (outcome unit) :=
  match c with
  | Returned => Some (Ok tt st)
  | Raised e => Some (Raise e st)
  | Calling _ _ | Fetched _ _ => None
  end.

Record race := Race {
  first_call : issue_call;
  second_call : issue_call;
  race_store : store
}.

(** Two calls under a schedule: [false] lets the first call run its
    next statement, [true] the second. *)
Fixpoint interleave (sched : list bool) (r : race) : race :=
  match sched with
  | [] => r
  | false :: sched' =>
      let (c, st) := issue_step (first_call r) (race_store r) in
      interleave sched' (Race c (second_call r) st)
  | true :: sched' =>
      let (c, st) := issue_step (second_call r) (race_store r) in
      interleave sched' (Race (first_call r) c st)
  end.

(** All the ways to merge two sequences of steps. *)
Fixpoint interleavings (l1 : list bool) : list bool -> list (list bool) :=
  fix inner (l2 : list bool) : list (list bool) :=
    match l1, l2 with
    | [], _ => [l2]
    | _, [] => [l1]
    | x :: l1', y :: l2' =>
        map (cons x) (interleavings l1' l2) ++ map (cons y) (inner l2')
    end.

(** The schedules of two calls of two statements each. *)
Definition schedules : list (list bool) := interleavings [false; false] [true; true].

(** One call ends before the other begins. *)
Definition first_then_second : list bool := [false; false; true; true].
Definition second_then_first : list bool := [true; true; false; false].

(** The row a call writes from the row it fetched. *)
Definition issued_row (b : book) (who : string) : book :=
  Book (title b) (author b) (year_or_none (year b)) (isbn b) "issued" (Some who).

(** The borrower the table holds for [k]. *)
Definition borrower_of (k : Z) (st : store) : option (option string) :=
  issued_to <$> books st !! k.

(** ** Histories of the store *)

(** The mutating entry points of the core. *)
Inductive op :=
  | OpAdd (title author : string) (year : option Z) (isbn : string)
  | OpUpdate (book_id : pyval) (title author : string) (year : option Z)
      (isbn : string) (status issued_to : option string)
  | OpDelete (book_id : pyval)
  | OpIssue (book_id : pyval) (borrower : string)
  | OpReturn (book_id : pyval)
  | OpImport (fileobj : string).

Definition exec (o : op) (st : store) : store :=
  match o with
  | OpAdd t a y i => final_store (add_book t a y i st)
  | OpUpdate k t a y i s b => final_store (update_book k t a y i s b st)
  | OpDelete k => final_store (delete_book k st)
  | OpIssue k b => final_store (issue_book k b st)
  | OpReturn k => final_store (return_book k st)
  | OpImport f => final_store (import_csv_fileobj f st)
  end.

(** The store after a history of calls. *)
Definition run_from (st : store) (ops : list op) : store :=
  foldl (fun st o => exec o st) st ops.

(** The store after a history of calls on the empty table. *)
Definition run (ops : list op) : store := run_from empty_store ops.

(** ** Notions used in the statements *)

(** The record a call argument resolves to, if any. *)
Definition find_book (st : store) (book_id : pyval) : option row :=
  k ← _to_int book_id; b ← books st !! k; Some (k, b).


(** The table with the row under key [k] replaced. *)
Definition set_row (k : Z) (b : book) (st : store) : store :=
  Store (<[k := b]> (books st)) (sqlite_sequence st).

(** Every record of the table satisfies [Q]. *)
Definition all_books (Q : book -> Prop) (st : store) : Prop :=
  map_Forall (fun _ b => Q b) (books st).

Global Instance all_books_dec Q `{!forall b, Decision (Q b)} st : Decision (all_books Q st).
Proof. unfold all_books. apply _. Defined.

(** No stored year is the integer 0. *)
Definition years_nonzero (st : store) : Prop :=
  all_books (fun b => year b <> Some 0) st.

Global Instance years_nonzero_dec st : Decision (years_nonzero st).
Proof. unfold years_nonzero. apply _. Defined.

(** The lending invariant: issued exactly when a borrower is recorded. *)
Definition lending_ok (b : book) : Prop :=
  status b = "issued" <-> is_Some (issued_to b).

Global Instance lending_ok_dec b : Decision (lending_ok b).
Proof. unfold lending_ok. apply _. Defined.

Definition lending_invariant (st : store) : Prop := all_books lending_ok st.

Global Instance lending_invariant_dec st : Decision (lending_invariant st).
Proof. unfold lending_invariant. apply _. Defined.

(** Case-insensitive substring, as the specification words the search:
    [p] is a prefix of [s], and [p] occurs in [s], up to ASCII case. *)
Fixpoint prefix_nocase (p s : list ascii) : bool :=
  match p, s with
  | [], _ => true
  | _ :: _, [] => false
  | c :: p', d :: s' => eq_nocase c d && prefix_nocase p' s'
  end.

Fixpoint contains_nocase (p s : list ascii) : bool :=
  prefix_nocase p s || match s with [] => false | _ :: s' => contains_nocase p s' end.

(** An absent constraint admits every record. *)
Definition constraint_met (needle : option string) (hay : string) : bool :=
  match needle with
  | None => true
  | Some n => contains_nocase (chars n) (chars hay)
  end.

(** The search of the specification: the records that meet both
    constraints, by ascending id. *)
Definition search_spec (title_q author_q : option string) (st : store) : list row :=
  order_by_id (List.filter
    (fun r : row => constraint_met title_q (title r.2) && constraint_met author_q (author r.2))
    (map_to_list (books st))).




(** The table with the records [bs] added one after the other, each
    under the next free id. *)
Definition append_books (st : store) (bs : list book) : store :=
  foldl (fun st b => Store (<[next_id st := b]> (books st)) (next_id st)) st bs.

(** A data row that is a blank line, or has a cell for each column of
    the header. *)
Definition row_complete (cells : list string) : Prop :=
  cells = [] \/ (4 <= length cells)%nat.

Global Instance row_complete_dec cells : Decision (row_complete cells).
Proof. unfold row_complete. apply _. Defined.

(** An [update] whose lending columns agree with each other. *)
Definition op_consistent (o : op) : Prop :=
  match o with
  | OpUpdate _ _ _ _ _ s b => status_or_available s = "issued" <-> is_Some b
  | _ => True
  end.

Global Instance op_consistent_dec o : Decision (op_consistent o).
Proof. destruct o; simpl; apply _. Defined.

(** ** Notions used in the proofs about the codec *)


(** The value of a decimal numeral read after [acc]. *)
Fixpoint uint_value (acc : Z) (d : Decimal.uint) : Z :=
  match d with
  | Decimal.Nil => acc
  | Decimal.D0 l => uint_value (10 * acc + 0) l
  | Decimal.D1 l => uint_value (10 * acc + 1) l
  | Decimal.D2 l => uint_value (10 * acc + 2) l
  | Decimal.D3 l => uint_value (10 * acc + 3) l
  | Decimal.D4 l => uint_value (10 * acc + 4) l
  | Decimal.D5 l => uint_value (10 * acc + 5) l
  | Decimal.D6 l => uint_value (10 * acc + 6) l
  | Decimal.D7 l => uint_value (10 * acc + 7) l
  | Decimal.D8 l => uint_value (10 * acc + 8) l
  | Decimal.D9 l => uint_value (10 * acc + 9) l
  end.




(** A text the import reads back as it was written: no whitespace at
    either end and no carriage return. *)
Definition clean (s : string) : Prop :=
  strip s = s /\ Forall (fun c => c <> CR) (chars s).

Global Instance clean_dec s : Decision (clean s).
Proof. unfold clean. apply _. Defined.

(** A record the export and the import carry through. *)
Definition portable (b : book) : Prop :=
  title b <> "" /\ clean (title b) /\ clean (author b) /\ clean (isbn b) /\
  year b <> Some 0.

Global Instance portable_dec b : Decision (portable b).
Proof. unfold portable. apply _. Defined.


(** ** Sample stores *)

(** The catalog of Scenario 1: one available book, under id 1. *)
Definition dune_store : store := run [OpAdd "Dune" "Herbert" (Some 1965) "123"].


(** A full replace that marks the book issued and names no borrower. *)
Definition issued_to_nobody : op :=
  OpUpdate (PyInt 1) "Dune" "Herbert" (Some 1965) "123" (Some "issued") None.

(** The catalog of Scenario 5. *)
Definition two_books : store :=
  run [OpAdd "Dune" "Herbert" (Some 1965) "123"; OpAdd "Foundation" "Asimov" (Some 1951) "456"].


(** An import stream whose second data row stops after the title. *)
Definition short_row_stream : string :=
"title,author,year,isbn
Dune,Herbert,1965,123
Emma
Persuasion,Austen,1817,9
".


(** ** Further notions: listings *)

(** Strictly ascending ids. *)
Definition id_lt (r1 r2 : row) : Prop := r1.1 < r2.1.



(** Every key of the table is at most the AUTOINCREMENT counter. *)
Definition sequence_ok (st : store) : Prop :=
  map_Forall (fun k _ => k <= sqlite_sequence st) (books st).

Global Instance sequence_ok_dec st : Decision (sequence_ok st).
Proof. unfold sequence_ok. apply _. Defined.

(** The record [add_book] stores. *)
Definition new_book (t a : string) (y : option Z) (i : string) : book :=
  Book t a (year_or_none y) i "available" None.

(** The record [update_book] stores. *)
Definition updated_book (t a : string) (y : option Z) (i : string)
    (s b : option string) : book :=
  Book t a (year_or_none y) i (status_or_available s) b.

(** ** Further notions: import and export *)

(** What every record written by an import satisfies. *)
Definition imported_ok (b : book) : Prop :=
  title b <> "" /\ strip (title b) = title b /\ strip (author b) = author b /\
  strip (isbn b) = isbn b /\ year b <> Some 0 /\
  status b = "available" /\ issued_to b = None.



(** A data row that is a blank line, or has a cell for each column of
    [header]. *)
Definition row_covers (header cells : list string) : Prop :=
  cells = [] \/ (length header <= length cells)%nat.

Global Instance row_covers_dec header cells : Decision (row_covers header cells).
Proof. unfold row_covers. apply _. Defined.


(** ** The routes *)

(** A route answers with a redirect to the index page and one flashed
    message; the answer is modelled by the message.  [request.form] and
    [request.args] are maps from names to texts. *)
Record flash := Flash {
  category : string;
  message : string
}.

Definition flash_message (msg : string) : flash := Flash "message" msg.
Definition flash_error (msg : string) : flash := Flash "error" msg.

(** [str(e)]. *)
Definition str_exn (e : exn) : string :=
  match e with
  | ValueError msg | AttributeError msg | CsvError msg => msg
  end.

(** [try: c; flash(done) except Exception as e: flash(str(e), 'error')]. *)
Definition try_flash {A} (c : M A) (done : A -> flash) : M flash :=
  fun st => match c st with
            | Ok a st' => Ok (done a) st'
            | Raise e st' => Ok (flash_error (str_exn e)) st'
            end.

(** [int(year) if year else None] in [save_book]: [None] is [ValueError]. *)
Definition form_year (year : string) : option (option Z) :=
  if decide (year = "") then Some None
  else match int_of_str year with
       | Some z => Some (Some z)
       | None => None
       end.

(** [int(book_id)], any exception giving [None]. *)
Definition form_id (book_id : string) : pyval :=
  match int_of_str book_id with
  | Some z => PyInt z
  | None => PyNone
  end.

(** The route [/save]. *)
Definition save_book (form : gmap string string) : M flash :=
  let book_id := form !! "id" in
  let title := strip (default "" (form !! "title")) in
  let author := strip (default "" (form !! "author")) in
  let year := strip (default "" (form !! "year")) in
  let isbn := strip (default "" (form !! "isbn")) in
  if decide (title = "") then ret (flash_error "Title is required")
  else
    match form_year year with
    | None => ret (flash_error "Year must be a number")
    | Some y =>
        match truthy book_id with
        | Some book_id =>
            let bid := form_id book_id in
            do existing <- get_book bid;
            let status := match existing with Some (_, b) => status b | None => "available" end in
            let issued_to := match existing with Some (_, b) => issued_to b | None => None end in
            update_book bid title author y isbn (Some status) issued_to;;
            ret (flash_message "Book updated")
        | None =>
            add_book title author y isbn;;
            ret (flash_message "Book added")
        end
    end.




(** [str.lower] on the code points below 256. *)
Definition py_lower (c : ascii) : ascii :=
  let n := N_of_ascii c in
  if ((65 <=? n)%N && (n <=? 90)%N) ||
     ((192 <=? n)%N && (n <=? 222)%N && negb (n =? 215)%N)
  then ascii_of_N (n + 32) else c.

(** [filename.rsplit('.', 1)[1]] when there is a dot in [filename]. *)
Fixpoint after_last_dot (l : list ascii) : option (list ascii) :=
  match l with
  | [] => None
  | c :: l' =>
      match after_last_dot l' with
      | Some e => Some e
      | None => if Ascii.eqb c "." then Some l' else None
      end
  end.

(** [filename.rsplit('.',1)[1].lower() if '.' in filename else '']. *)
Definition extension (filename : string) : string :=
  match after_last_dot (chars filename) with
  | Some e => text (map py_lower e)
  | None => ""
  end.

(** An uploaded file: its name and its content. *)
Record upload := Upload {
  filename : string;
  stream : string
}.

Section Routes.

(** [werkzeug.utils.secure_filename], which the import route applies to
    the name of the upload before it looks at the extension. *)
Variable secure_filename : string -> string.

(** The route [/import]; [file] is [request.files.get('file')]. *)
Definition import_csv (file : option upload) : M flash :=
  match file with
  | None => ret (flash_error "No file uploaded")
  | Some f =>
      if decide (filename f = "") then ret (flash_error "No file selected")
      else if decide (extension (secure_filename (filename f)) = "csv")
      then try_flash (import_csv_fileobj (stream f))
             (fun added => flash_message ("Imported " +:+ str_of_int added +:+ " rows"))
      else ret (flash_error "Only CSV files allowed")
  end.




End Routes.





(** A save form without a title. *)
Definition blank_form : gmap string string :=
  <["title" := "   "]> (<["author" := "Herbert"]> ∅).




(** * Properties *)

(** ** The monad and the store *)

Lemma bind_run {A B} (c : M A) (k : A -> M B) (st : store) :
  bind c k st =
  match c st with
  | Ok a st' => k a st'
  | Raise e st' => Raise e st'
  end.
Proof. reflexivity. Qed.

Lemma store_eta (st : store) : Store (books st) (sqlite_sequence st) = st.
Proof. by destruct st. Qed.


Lemma foldr_max_elem (d x : Z) (l : list Z) : x ∈ l -> x <= foldr Z.max d l.
Proof.
  induction l as [|y l IH]; simpl; intros Hin.
  - by apply elem_of_nil in Hin.
  - apply elem_of_cons in Hin as [->|Hin]; [lia|]. specialize (IH Hin). lia.
Qed.

Lemma max_key_lookup (d k : Z) (b : book) (m : gmap Z book) :
  m !! k = Some b -> k <= max_key d m.
Proof.
  intros Hk. apply foldr_max_elem.
  apply list_elem_of_fmap. exists (k, b). split; [done|].
  by apply elem_of_map_to_list.
Qed.


Lemma get_book_find (st : store) (book_id : pyval) :
  get_book book_id st = Ok (find_book st book_id) st.
Proof.
  unfold get_book, find_book. destruct (_to_int book_id) as [k|]; simpl; [|done].
  unfold bind, get_store, ret. by destruct (books st !! k).
Qed.

Lemma find_book_Some (st : store) (book_id : pyval) (k : Z) (b : book) :
  find_book st book_id = Some (k, b) -> _to_int book_id = Some k /\ books st !! k = Some b.
Proof.
  unfold find_book. destruct (_to_int book_id) as [k'|]; simpl; [|done].
  destruct (books st !! k') as [b'|] eqn:Hb; simpl; [|done].
  intros [= -> ->]. done.
Qed.

Lemma find_book_None (st : store) (book_id : pyval) :
  find_book st book_id = None ->
  _to_int book_id = None \/ exists k, _to_int book_id = Some k /\ books st !! k = None.
Proof.
  unfold find_book. destruct (_to_int book_id) as [k|]; simpl; [|by left].
  destruct (books st !! k) eqn:Hb; simpl; [done|]. right. by exists k.
Qed.

Lemma sql_update_absent (k : Z) (b : book) (st : store) :
  books st !! k = None -> sql_update k b st = st.
Proof. unfold sql_update. by intros ->. Qed.

Lemma sql_update_present (k : Z) (b b0 : book) (st : store) :
  books st !! k = Some b0 -> sql_update k b st = set_row k b st.
Proof. unfold sql_update. by intros ->. Qed.

Lemma sql_delete_absent (k : Z) (st : store) :
  books st !! k = None -> sql_delete k st = st.
Proof.
  intros Hk. unfold sql_delete. rewrite delete_id by done. apply store_eta.
Qed.

Lemma update_book_int (k : Z) t a y i s b (st : store) :
  update_book (PyInt k) t a y i s b st =
  Ok tt (sql_update k (Book t a (year_or_none y) i (status_or_available s) b) st).
Proof. reflexivity. Qed.

Lemma year_or_none_id (y : option Z) : y <> Some 0 -> year_or_none y = y.
Proof. destruct y as [[| |]|]; simpl; congruence. Qed.

(** Scenario 1: a book added is fetched back under the id returned. *)
Example add_then_get :
  (do k <- add_book "Dune" "Herbert" (Some 1965) "123"; get_book (PyInt k)) empty_store =
  Ok (Some (1, Book "Dune" "Herbert" (Some 1965) "123" "available" None)) dune_store.
Proof. reflexivity. Qed.

(** ** Lending transitions *)





(** ** Permissive update and delete *)

Lemma update_delete_missing_noop_aux (st : store) (book_id : pyval)
    (t a : string) (y : option Z) (i : string) (s b : option string) :
  _to_int book_id = None \/
    (exists k, _to_int book_id = Some k /\ books st !! k = None) ->
  update_book book_id t a y i s b st = Ok tt st /\
  delete_book book_id st = Ok tt st.
Proof.
  intros Hid. split.
  - unfold update_book. destruct Hid as [->|(k & -> & Hk)]; [done|].
    rewrite bind_run. simpl. unfold put_store. by rewrite sql_update_absent.
  - unfold delete_book. destruct Hid as [->|(k & -> & Hk)]; [done|].
    rewrite bind_run. simpl. unfold put_store. by rewrite sql_delete_absent.
Qed.



(** ** Invariants of the table *)

Lemma add_book_run (t a : string) (y : option Z) (i : string) (st : store) :
  add_book t a y i st = Ok (next_id st) (sql_insert t a (year_or_none y) i st).
Proof. reflexivity. Qed.

Lemma update_book_final book_id t a y i s b (st : store) :
  final_store (update_book book_id t a y i s b st) = st \/
  exists k, final_store (update_book book_id t a y i s b st) =
            set_row k (Book t a (year_or_none y) i (status_or_available s) b) st.
Proof.
  unfold update_book. destruct (_to_int book_id) as [k|]; [|by left].
  rewrite bind_run. simpl. unfold sql_update.
  destruct (books st !! k); [right; by exists k|by left].
Qed.

Lemma issue_book_final book_id who (st : store) :
  final_store (issue_book book_id who st) = st \/
  exists k b, books st !! k = Some b /\
    final_store (issue_book book_id who st) =
    set_row k (Book (title b) (author b) (year_or_none (year b)) (isbn b)
                 "issued" (Some who)) st.
Proof.
  unfold issue_book. rewrite bind_run, get_book_find.
  destruct (find_book st book_id) as [[k b]|] eqn:Hf; [|by left].
  apply find_book_Some in Hf as [_ Hb].
  case_decide; [by left|]. right. exists k, b. split; [done|].
  by rewrite update_book_int, (sql_update_present _ _ b).
Qed.

Lemma return_book_final book_id (st : store) :
  final_store (return_book book_id st) = st \/
  exists k b, books st !! k = Some b /\
    final_store (return_book book_id st) =
    set_row k (Book (title b) (author b) (year_or_none (year b)) (isbn b)
                 "available" None) st.
Proof.
  unfold return_book. rewrite bind_run, get_book_find.
  destruct (find_book st book_id) as [[k b]|] eqn:Hf; [|by left].
  apply find_book_Some in Hf as [_ Hb].
  case_decide; [by left|]. right. exists k, b. split; [done|].
  by rewrite update_book_int, (sql_update_present _ _ b).
Qed.

Lemma get_strip_final (r : gmap string (option string)) (key : string) (st : store) :
  (exists s, get_strip r key st = Ok s st) \/ get_strip r key st = Raise no_strip st.
Proof.
  unfold get_strip. destruct (default (Some "") (r !! key)) as [s|]; [left; by eexists|by right].
Qed.

(** What holds of the store before an import and is kept by every
    [add_book] holds after it. *)
Lemma import_loop_preserves (P : store -> Prop) :
  (forall t a y i st, P st -> P (final_store (add_book t a y i st))) ->
  forall rs added st, P st -> P (final_store (import_loop rs added st)).
Proof.
  intros Hadd rs. induction rs as [|r rs IH]; intros added st HP; [done|].
  simpl. rewrite bind_run.
  destruct (get_strip_final r "title" st) as [[t ->]| ->]; [|done].
  case_decide; [by apply IH|].
  rewrite bind_run.
  destruct (get_strip_final r "author" st) as [[a ->]| ->]; [|done].
  rewrite bind_run.
  destruct (get_strip_final r "year" st) as [[y ->]| ->]; [|done].
  rewrite bind_run.
  destruct (get_strip_final r "isbn" st) as [[i ->]| ->]; [|done].
  rewrite bind_run, add_book_run. apply IH.
  specialize (Hadd t a (parse_year y) i st HP). by rewrite add_book_run in Hadd.
Qed.

Lemma import_csv_preserves (P : store -> Prop) :
  (forall t a y i st, P st -> P (final_store (add_book t a y i st))) ->
  forall fileobj st, P st -> P (final_store (import_csv_fileobj fileobj st)).
Proof.
  intros Hadd fileobj st HP. unfold import_csv_fileobj.
  destruct (csv_reader fileobj) as [rows err]. rewrite bind_run.
  pose proof (import_loop_preserves P Hadd (dict_reader rows) 0 st HP) as H.
  destruct (import_loop (dict_reader rows) 0 st) as [n st'|e st']; [|done].
  by destruct err.
Qed.

Section Invariant.
(** A property [Q] of the stored records that every write of the core
    establishes, the writes of [update] under the side condition [ok]. *)
Variable Q : book -> Prop.
Variable ok : op -> Prop.

Hypothesis Q_add : forall t a y i, Q (Book t a (year_or_none y) i "available" None).
Hypothesis Q_issue : forall b who,
  Q b -> Q (Book (title b) (author b) (year_or_none (year b)) (isbn b) "issued" (Some who)).
Hypothesis Q_return : forall b,
  Q b -> Q (Book (title b) (author b) (year_or_none (year b)) (isbn b) "available" None).
Hypothesis Q_update : forall k t a y i s b,
  ok (OpUpdate k t a y i s b) ->
  Q (Book t a (year_or_none y) i (status_or_available s) b).

Lemma inv_set_row k b st : all_books Q st -> Q b -> all_books Q (set_row k b st).
Proof. intros Hst Hb. unfold all_books. simpl. by apply map_Forall_insert_2. Qed.

Lemma inv_add t a y i st : all_books Q st -> all_books Q (final_store (add_book t a y i st)).
Proof.
  intros Hst. rewrite add_book_run. unfold all_books. simpl.
  by apply map_Forall_insert_2.
Qed.

Lemma exec_preserves (o : op) (st : store) : ok o -> all_books Q st -> all_books Q (exec o st).
Proof.
  intros Hok Hst. destruct o as [t a y i|k t a y i s b|k|k who|k|f]; simpl.
  - by apply inv_add.
  - destruct (update_book_final k t a y i s b st) as [->|[k' ->]]; [done|].
    apply inv_set_row; [done|]. by eapply Q_update.
  - unfold delete_book. destruct (_to_int k); [|done].
    rewrite bind_run. simpl. by apply map_Forall_delete.
  - destruct (issue_book_final k who st) as [->|(k' & b & Hb & ->)]; [done|].
    apply inv_set_row; [done|]. apply Q_issue. by eapply Hst.
  - destruct (return_book_final k st) as [->|(k' & b & Hb & ->)]; [done|].
    apply inv_set_row; [done|]. apply Q_return. by eapply Hst.
  - apply (import_csv_preserves (all_books Q)); [|done]. intros. by apply inv_add.
Qed.

Lemma run_from_preserves (ops : list op) (st : store) :
  Forall ok ops -> all_books Q st -> all_books Q (run_from st ops).
Proof.
  intros Hops. revert st. induction Hops as [|o ops Ho _ IH]; intros st Hst; [done|].
  simpl. apply IH. by apply exec_preserves.
Qed.
End Invariant.

Lemma year_or_none_nonzero (y : option Z) : year_or_none y <> Some 0.
Proof. by destruct y as [[| |]|]. Qed.

Lemma years_nonzero_run_from (ops : list op) (st : store) :
  years_nonzero st -> years_nonzero (run_from st ops).
Proof.
  intros Hst.
  apply (run_from_preserves (fun b => year b <> Some 0) (fun _ => True)); try done;
    try (intros; apply year_or_none_nonzero).
  by apply Forall_true.
Qed.

(** C3, as the code has it.  The lending invariant holds in the empty
    table and is kept by every history of [add], [update], [delete],
    [issue], [return] and [import] calls in which each [update] is given
    a status and a borrower that agree with each other. *)
Theorem lending_invariant_preserved (st : store) (ops : list op) :
  lending_invariant st ->
  Forall op_consistent ops ->
  lending_invariant empty_store /\ lending_invariant (run_from st ops).
Proof.
  intros Hst Hops. split; [apply map_Forall_empty|].
  apply (run_from_preserves lending_ok op_consistent); [| | | |done|done].
  - intros t a y i. split; [done|]. by intros [? [=]].
  - intros b who _. split; [by eexists|done].
  - intros b _. split; [done|]. by intros [? [=]].
  - intros k t a y i s b Hok. exact Hok.
Qed.

Lemma lending_invariant_preserved_witness :
  lending_invariant dune_store /\
  Forall op_consistent [OpIssue (PyInt 1) "Alice"; OpReturn (PyInt 1);
                        OpUpdate (PyInt 1) "Dune" "F. Herbert" (Some 1965) "123"
                          (Some "issued") (Some "Bob")] /\
  lending_invariant empty_store /\
  lending_invariant
    (run_from dune_store [OpIssue (PyInt 1) "Alice"; OpReturn (PyInt 1);
                          OpUpdate (PyInt 1) "Dune" "F. Herbert" (Some 1965) "123"
                            (Some "issued") (Some "Bob")]).
Proof.
  assert (H1 : lending_invariant dune_store)
    by (apply (bool_decide_unpack _); vm_compute; exact I).
  assert (H2 : Forall op_consistent [OpIssue (PyInt 1) "Alice"; OpReturn (PyInt 1);
                        OpUpdate (PyInt 1) "Dune" "F. Herbert" (Some 1965) "123"
                          (Some "issued") (Some "Bob")])
    by (apply (bool_decide_unpack _); vm_compute; exact I).
  split; [exact H1|]. split; [exact H2|].
  exact (lending_invariant_preserved dune_store _ H1 H2).
Defined.

(** C3 as stated fails: a full replace that marks the book issued and
    names no borrower leaves a store in which the invariant is broken. *)
Lemma update_breaks_lending_invariant :
  lending_invariant dune_store /\
  ~ lending_invariant (exec issued_to_nobody dune_store).
Proof. split; apply (bool_decide_unpack _); vm_compute; exact I. Qed.

(** ** The year 0 *)

(** C10.  [add_book] and [update_book] called with the integer 0 for the
    year store NULL; no history of calls on the empty table leaves a
    record with year 0; and the export cell of an absent year is empty. *)
Theorem year_zero_stored_absent (st : store) (ops : list op) (book_id : pyval)
    (t a i : string) (s b : option string) (id : Z) :
  books (final_store (add_book t a (Some 0) i st)) !! next_id st =
    Some (Book t a None i "available" None) /\
  match find_book st book_id with
  | Some (k, _) =>
      books (final_store (update_book book_id t a (Some 0) i s b st)) !! k =
      Some (Book t a None i (status_or_available s) b)
  | None => final_store (update_book book_id t a (Some 0) i s b st) = st
  end /\
  years_nonzero (run ops) /\
  export_cells (id, Book t a None i (status_or_available s) b) !! 3%nat = Some "".
Proof.
  split; [|split; [|split]].
  - rewrite add_book_run. simpl. apply lookup_insert_eq.
  - destruct (find_book st book_id) as [[k b0]|] eqn:Hf.
    + apply find_book_Some in Hf as [Hid Hb]. unfold update_book. rewrite Hid.
      rewrite bind_run. simpl. rewrite (sql_update_present _ _ b0) by done.
      simpl. apply lookup_insert_eq.
    + apply find_book_None in Hf.
      by destruct (update_delete_missing_noop_aux st book_id t a (Some 0) i s b Hf) as [-> _].
  - apply years_nonzero_run_from. apply map_Forall_empty.
  - reflexivity.
Qed.

(** ** Search *)

Lemma chars_app (s1 s2 : string) : chars (s1 +:+ s2) = chars s1 ++ chars s2.
Proof. unfold chars. induction s1 as [|c s1 IH]; simpl; [done|]. by rewrite IH. Qed.









Lemma filter_true {A} (l : list A) : List.filter (fun _ => true) l = l.
Proof. induction l as [|x l IH]; simpl; [done|]. by rewrite IH. Qed.

(** Without constraints, [search] is [list_all]. *)
Lemma search_unconstrained (st : store) :
  search None None st = list_all st /\ search (Some "") (Some "") st = list_all st.
Proof.
  split; unfold search, list_all; rewrite !bind_run; simpl; unfold ret; f_equal;
    unfold select_where, select_all; simpl; by rewrite filter_true.
Qed.

Global Instance id_le_total : Total id_le.
Proof. intros r1 r2. unfold id_le. lia. Qed.

Global Instance id_le_trans : Transitive id_le.
Proof. intros r1 r2 r3. unfold id_le. lia. Qed.

(** The rows of a query come by ascending id. *)
Lemma select_where_sorted (cls : list clause) (st : store) :
  StronglySorted id_le (select_where cls st).
Proof. unfold select_where, order_by_id. apply StronglySorted_merge_sort; apply _. Qed.

(** Scenario 5. *)
Example search_dun :
  search (Some "dun") None two_books =
  Ok [(1, Book "Dune" "Herbert" (Some 1965) "123" "available" None)] two_books.
Proof. vm_compute. reflexivity. Qed.

(** C8 fails on the code: [_] in the search text is a wildcard of
    [LIKE].  No title of the catalog contains the text [d_n], and the
    search for it returns Dune. *)
Theorem search_wildcard_divergence :
  search (Some "d_n") None two_books =
    Ok [(1, Book "Dune" "Herbert" (Some 1965) "123" "available" None)] two_books /\
  search_spec (Some "d_n") None two_books = [].
Proof. split; vm_compute; reflexivity. Qed.

(** ** Import *)






Lemma foldr_max_bounded (d : Z) (l : list Z) :
  Forall (fun x => x <= d) l -> foldr Z.max d l = d.
Proof. induction 1 as [|x l Hx _ IH]; simpl; [done|]. rewrite IH. lia. Qed.

Lemma next_id_insert (st : store) (b : book) :
  next_id (Store (<[next_id st := b]> (books st)) (next_id st)) = next_id st + 1.
Proof.
  unfold next_id at 1. simpl. unfold max_key. rewrite foldr_max_bounded; [lia|].
  apply Forall_forall. intros k Hk.
  apply list_elem_of_fmap in Hk as ([k' b'] & -> & Hk).
  apply elem_of_map_to_list in Hk. simpl.
  destruct (decide (k' = next_id st)) as [->|Hne]; [lia|].
  rewrite lookup_insert_ne in Hk by done.
  apply (max_key_lookup (sqlite_sequence st)) in Hk. unfold next_id. lia.
Qed.

(** The records added sit under the ids from [next_id] on, in order;
    nothing else changes. *)
Lemma append_books_lookup (bs : list book) (st : store) (k : Z) :
  books (append_books st bs) !! k =
  if decide (next_id st <= k) then bs !! Z.to_nat (k - next_id st) else books st !! k.
Proof.
  revert st. induction bs as [|b bs IH]; intros st; simpl.
  - case_decide; [|done].
    destruct (books st !! k) as [b|] eqn:Hk; [|done].
    apply (max_key_lookup (sqlite_sequence st)) in Hk. unfold next_id in *. lia.
  - rewrite IH, next_id_insert. simpl.
    destruct (decide (k = next_id st)) as [->|Hne].
    + rewrite decide_False, decide_True by lia.
      rewrite lookup_insert_eq. by replace (next_id st - next_id st) with 0 by lia.
    + rewrite lookup_insert_ne by done.
      repeat case_decide; try lia; [|done].
      replace (Z.to_nat (k - next_id st)) with (S (Z.to_nat (k - (next_id st + 1)))) by lia.
      done.
Qed.



(** C7 fails on the code: a data row shorter than the header, with a
    title, ends the import with AttributeError.  The row before it stays
    added; the row after it is never read. *)
Theorem import_short_row_aborts :
  import_csv_fileobj short_row_stream empty_store =
  Raise no_strip
    (append_books empty_store [Book "Dune" "Herbert" (Some 1965) "123" "available" None]).
Proof. vm_compute. reflexivity. Qed.

(** ** Two callers of [issue_book] at once *)

Lemma issue_step_calling (book_id : pyval) (who : string) (st : store) :
  issue_step (Calling book_id who) st = (Fetched (find_book st book_id) who, st).
Proof. simpl. by rewrite get_book_find. Qed.

(** The two statements run one after the other are [issue_book]. *)
Lemma issue_steps_sequential (book_id : pyval) (who : string) (st : store) :
  let p1 := issue_step (Calling book_id who) st in
  let p2 := issue_step p1.1 p1.2 in
  outcome_of p2.1 p2.2 = Some (issue_book book_id who st).
Proof.
  simpl. unfold issue_book. rewrite bind_run, get_book_find. simpl.
  destruct (find_book st book_id) as [[k b]|]; [|done].
  case_decide; [done|]. by rewrite update_book_int.
Qed.

Example schedules_are :
  schedules =
  [ [false; false; true; true]; [false; true; false; true]; [false; true; true; false];
    [true; false; false; true]; [true; false; true; false]; [true; true; false; false] ].
Proof. reflexivity. Qed.

Lemma issue_step_write (k : Z) (b b0 : book) (who : string) (st : store) :
  status b = "available" -> books st !! k = Some b0 ->
  issue_step (Fetched (Some (k, b)) who) st = (Returned, set_row k (issued_row b who) st).
Proof.
  intros Hs Hb. unfold issue_step. rewrite decide_False by (rewrite Hs; discriminate).
  by rewrite update_book_int, (sql_update_present _ _ b0).
Qed.

Lemma issue_step_refuse (k : Z) (b : book) (who who' : string) (st : store) :
  issue_step (Fetched (Some (k, issued_row b who)) who') st = (Raised AlreadyIssued, st).
Proof. done. Qed.

Lemma find_book_set_row (st : store) (book_id : pyval) (k : Z) (b : book) :
  _to_int book_id = Some k -> find_book (set_row k b st) book_id = Some (k, b).
Proof. intros Hid. unfold find_book. rewrite Hid. simpl. by rewrite lookup_insert_eq. Qed.

Lemma set_row_lookup (k : Z) (b : book) (st : store) : books (set_row k b st) !! k = Some b.
Proof. apply lookup_insert_eq. Qed.

(** C4, as the code has it.  Of two calls of [issue_book] for the same
    available record, the one that runs alone to its end before the
    other starts returns and the other raises AlreadyIssued; under every
    other schedule both calls fetch the record while it is available,
    both return, and the table keeps the borrower written last. *)
Theorem issue_calls_interleaved (st : store) (book_id : pyval) (k : Z) (b : book)
    (who1 who2 : string) :
  find_book st book_id = Some (k, b) ->
  status b = "available" ->
  Forall (fun sched =>
    let r := interleave sched (Race (Calling book_id who1) (Calling book_id who2) st) in
    if decide (sched = first_then_second) then
      first_call r = Returned /\ second_call r = Raised AlreadyIssued /\
      borrower_of k (race_store r) = Some (Some who1)
    else if decide (sched = second_then_first) then
      first_call r = Raised AlreadyIssued /\ second_call r = Returned /\
      borrower_of k (race_store r) = Some (Some who2)
    else
      first_call r = Returned /\ second_call r = Returned /\
      borrower_of k (race_store r) =
        Some (Some (if default false (last sched) then who2 else who1)))
    schedules.
Proof.
  intros Hf Hs. pose proof Hf as Hf'. apply find_book_Some in Hf' as [Hid Hb].
  unfold schedules, borrower_of. cbn [interleavings map app].
  repeat apply Forall_cons_2; [..|apply Forall_nil_2];
    (rewrite decide_True by done) || (rewrite decide_False by done);
    try ((rewrite decide_True by done) || (rewrite decide_False by done));
    cbn [interleave first_call second_call race_store];
    repeat first
      [ rewrite issue_step_calling
      | rewrite Hf
      | rewrite (find_book_set_row _ _ _ _ Hid)
      | rewrite issue_step_refuse
      | rewrite (issue_step_write _ _ b) by (done || apply set_row_lookup)
      | rewrite (issue_step_write _ _ (issued_row b who1)) by (done || apply set_row_lookup)
      | rewrite (issue_step_write _ _ (issued_row b who2)) by (done || apply set_row_lookup)
      | progress cbn [interleave first_call second_call race_store] ];
    rewrite ?set_row_lookup; done.
Qed.

Lemma issue_calls_interleaved_witness :
  find_book dune_store (PyInt 1) =
    Some (1, Book "Dune" "Herbert" (Some 1965) "123" "available" None) /\
  status (Book "Dune" "Herbert" (Some 1965) "123" "available" None) = "available" /\
  let r := interleave first_then_second
             (Race (Calling (PyInt 1) "Alice") (Calling (PyInt 1) "Bob") dune_store) in
  first_call r = Returned /\ second_call r = Raised AlreadyIssued /\
  borrower_of 1 (race_store r) = Some (Some "Alice").
Proof.
  assert (H1 : find_book dune_store (PyInt 1) =
    Some (1, Book "Dune" "Herbert" (Some 1965) "123" "available" None)) by reflexivity.
  assert (H2 : status (Book "Dune" "Herbert" (Some 1965) "123" "available" None) = "available")
    by reflexivity.
  split; [exact H1|]. split; [exact H2|].
  exact (Forall_inv (issue_calls_interleaved dune_store (PyInt 1) 1 _ "Alice" "Bob" H1 H2)).
Defined.

(** C4 as stated fails: when each call fetches the record before the
    other updates it, both calls return, and Bob's update overwrites
    Alice's. *)
Lemma both_issue_calls_return :
  let r := interleave [false; true; false; true]
             (Race (Calling (PyInt 1) "Alice") (Calling (PyInt 1) "Bob") dune_store) in
  first_call r = Returned /\ second_call r = Returned /\
  borrower_of 1 (race_store r) = Some (Some "Bob").
Proof. vm_compute. repeat split; reflexivity. Qed.

(** ** The CSV codec *)









Lemma chars_text (l : list ascii) : chars (text l) = l.
Proof. apply list_ascii_of_string_of_list_ascii. Qed.













(** *** The reader on the text of the writer *)














(** ** Integers as text *)

Lemma of_uint_acc_value (d : Decimal.uint) (acc : positive) :
  Z.pos (Pos.of_uint_acc d acc) = uint_value (Z.pos acc) d.
Proof.
  revert acc. induction d; intros acc; simpl; [done|..]; rewrite IHd; f_equal; lia.
Qed.

Lemma of_uint_value (d : Decimal.uint) : Z.of_N (Pos.of_uint d) = uint_value 0 d.
Proof. induction d; simpl; try done; by rewrite of_uint_acc_value. Qed.

Lemma to_uint_value (p : positive) : uint_value 0 (Pos.to_uint p) = Z.pos p.
Proof. by rewrite <- of_uint_value, DecimalPos.Unsigned.of_to. Qed.

Lemma digits_value_uint (d : Decimal.uint) (acc : Z) :
  digits_value acc true (chars (NilEmpty.string_of_uint d)) = Some (uint_value acc d).
Proof. revert acc. induction d; intros acc; simpl; [done|..]; by rewrite IHd. Qed.

Lemma digits_value_uint_start (d : Decimal.uint) :
  d <> Decimal.Nil ->
  digits_value 0 false (chars (NilEmpty.string_of_uint d)) = Some (uint_value 0 d).
Proof. destruct d; intros Hd; [done|..]; simpl; by rewrite digits_value_uint. Qed.

Lemma uint_chars_digits (d : Decimal.uint) :
  Forall (fun c => is_digit c = true) (chars (NilEmpty.string_of_uint d)).
Proof. induction d; simpl; by constructor. Qed.

Lemma string_of_uint_nonnil (d : Decimal.uint) :
  d <> Decimal.Nil -> NilZero.string_of_uint d = NilEmpty.string_of_uint d.
Proof. by destruct d. Qed.

Lemma is_digit_plain (c : ascii) :
  is_digit c = true ->
  is_space c = false /\ c <> CR /\ c <> "-"%char /\ c <> "+"%char /\ special c = false.
Proof. destruct c as [[] [] [] [] [] [] [] []]; done. Qed.

Lemma lstrip_id (l : list ascii) :
  match l with c :: _ => is_space c = false | [] => True end -> lstrip l = l.
Proof. destruct l as [|c l]; simpl; [done|]. by intros ->. Qed.

Lemma strip_no_space (l : list ascii) :
  Forall (fun c => is_space c = false) l -> rstrip (lstrip l) = l.
Proof.
  intros Hl. rewrite lstrip_id by (by destruct Hl).
  unfold rstrip. rewrite lstrip_id; [apply rev_involutive|].
  apply Forall_rev in Hl. by destruct Hl.
Qed.

(** Past the sign, [int()] reads the digits. *)
Lemma int_of_digits (l : list ascii) :
  Forall (fun c => is_digit c = true) l -> signed_value l = digits_value 0 false l.
Proof.
  destruct 1 as [|c l Hc _]; [done|].
  destruct c as [[] [] [] [] [] [] [] []]; done.
Qed.

(** [int(str(z))] is [z]. *)
Lemma int_of_str_of_int (z : Z) : int_of_str (str_of_int z) = Some z.
Proof.
  destruct z as [|p|p]; [done|..]; unfold int_of_str, str_of_int; cbn [Z.to_int NilZero.string_of_int];
    rewrite string_of_uint_nonnil by apply Unsigned.to_uint_nonnil.
  - pose proof (uint_chars_digits (Pos.to_uint p)) as Hd.
    rewrite strip_no_space by (eapply Forall_impl; [exact Hd|]; intros c Hc; by apply is_digit_plain).
    rewrite int_of_digits by done.
    rewrite digits_value_uint_start by apply Unsigned.to_uint_nonnil.
    by rewrite to_uint_value.
  - pose proof (uint_chars_digits (Pos.to_uint p)) as Hd.
    change (chars (String "-" ?s)) with ("-"%char :: chars s).
    rewrite strip_no_space.
    2:{ constructor; [done|]. eapply Forall_impl; [exact Hd|]. intros c Hc. by apply is_digit_plain. }
    cbn [signed_value].
    rewrite digits_value_uint_start by apply Unsigned.to_uint_nonnil.
    by rewrite to_uint_value.
Qed.





(** ** Export, then import *)













(** * Further properties of the core *)

(** ** Listings *)

Lemma select_all_elem (st : store) (k : Z) (b : book) :
  (k, b) ∈ select_all st <-> books st !! k = Some b.
Proof.
  unfold select_all, order_by_id. rewrite merge_sort_Permutation.
  apply elem_of_map_to_list.
Qed.

Lemma order_by_id_sorted (l : list row) :
  NoDup (map fst l) -> StronglySorted id_lt (order_by_id l).
Proof.
  intros Hnd. unfold order_by_id.
  assert (Hs : StronglySorted id_le (merge_sort id_le l))
    by (apply StronglySorted_merge_sort; apply _).
  assert (Hnd' : NoDup (map fst (merge_sort id_le l)))
    by (by rewrite merge_sort_Permutation).
  induction Hs as [|r l' Hs IH Hr]; [constructor|].
  cbn [map] in Hnd'. apply NoDup_cons in Hnd' as [Hnin Hnd'].
  constructor; [by apply IH|].
  apply Forall_forall. intros r' Hr'.
  rewrite Forall_forall in Hr. specialize (Hr r' Hr').
  unfold id_le in Hr. unfold id_lt.
  destruct (decide (r.1 = r'.1)) as [Heq|Hne]; [|lia].
  exfalso. apply Hnin. rewrite Heq. apply list_elem_of_fmap. by exists r'.
Qed.


Lemma select_all_sorted (st : store) : StronglySorted id_lt (select_all st).
Proof. apply order_by_id_sorted, NoDup_fst_map_to_list. Qed.






Lemma select_all_length (st : store) : length (select_all st) = size (books st).
Proof.
  unfold select_all, order_by_id. rewrite merge_sort_Permutation.
  apply length_map_to_list.
Qed.

(** [list_all] returns every row of the table once, by strictly
    ascending id. *)
Theorem list_all_spec (st : store) :
  list_all st = Ok (select_all st) st /\
  StronglySorted id_lt (select_all st) /\
  (forall k b, (k, b) ∈ select_all st <-> books st !! k = Some b) /\
  length (select_all st) = size (books st).
Proof.
  split; [done|]. split; [apply select_all_sorted|].
  split; [apply select_all_elem|apply select_all_length].
Qed.



(** ** Add, update, delete *)

Lemma next_id_above (st : store) (k : Z) (b : book) :
  books st !! k = Some b -> k < next_id st.
Proof.
  intros Hk. apply (max_key_lookup (sqlite_sequence st)) in Hk. unfold next_id. lia.
Qed.








(** ** Histories *)







(** ** Issue, then return *)

(** Lending an available book and taking it back leaves the store as it
    was. *)
Theorem issue_then_return (book_id : pyval) (who : string) (st : store) (k : Z) (b : book) :
  find_book st book_id = Some (k, b) ->
  status b = "available" -> issued_to b = None -> year b <> Some 0 ->
  (issue_book book_id who ;; return_book book_id) st = Ok tt st.
Proof.
  intros Hf Hs Hto Hy. pose proof Hf as Hf'. apply find_book_Some in Hf' as [Hid Hb].
  rewrite bind_run. unfold issue_book. rewrite bind_run, get_book_find, Hf.
  rewrite decide_False by (rewrite Hs; discriminate).
  rewrite update_book_int, (sql_update_present _ _ b) by done.
  unfold return_book. rewrite bind_run, get_book_find, (find_book_set_row _ _ _ _ Hid).
  rewrite decide_False by discriminate.
  rewrite update_book_int, (sql_update_present _ _ _ _ (set_row_lookup _ _ _)).
  f_equal. unfold set_row. simpl. rewrite insert_insert_eq.
  rewrite !year_or_none_id by (done || apply year_or_none_nonzero).
  rewrite insert_id; [by destruct st|].
  rewrite Hb. f_equal. destruct b; simpl in *. by subst.
Qed.

Lemma issue_then_return_witness :
  find_book dune_store (PyInt 1) =
    Some (1, Book "Dune" "Herbert" (Some 1965) "123" "available" None) /\
  (issue_book (PyInt 1) "Alice" ;; return_book (PyInt 1)) dune_store = Ok tt dune_store.
Proof.
  assert (H : find_book dune_store (PyInt 1) =
    Some (1, Book "Dune" "Herbert" (Some 1965) "123" "available" None)) by reflexivity.
  split; [exact H|].
  exact (issue_then_return (PyInt 1) "Alice" dune_store 1 _ H eq_refl eq_refl
           ltac:(discriminate)).
Defined.

(** ** Ids as text *)

Lemma to_int_text (k : Z) : _to_int (PyStr (str_of_int k)) = Some k.
Proof. apply int_of_str_of_int. Qed.

(** An id given as its decimal text is the id: every method resolves
    [str(k)] as it resolves [k]. *)
Theorem text_id_is_id (k : Z) (t a : string) (y : option Z) (i : string)
    (s b : option string) (who : string) (st : store) :
  get_book (PyStr (str_of_int k)) st = get_book (PyInt k) st /\
  update_book (PyStr (str_of_int k)) t a y i s b st = update_book (PyInt k) t a y i s b st /\
  delete_book (PyStr (str_of_int k)) st = delete_book (PyInt k) st /\
  issue_book (PyStr (str_of_int k)) who st = issue_book (PyInt k) who st /\
  return_book (PyStr (str_of_int k)) st = return_book (PyInt k) st.
Proof.
  assert (Hg : get_book (PyStr (str_of_int k)) st = get_book (PyInt k) st).
  { unfold get_book. by rewrite to_int_text. }
  split; [done|].
  split; [unfold update_book; by rewrite to_int_text|].
  split; [unfold delete_book; by rewrite to_int_text|].
  split.
  - unfold issue_book. by rewrite !bind_run, Hg.
  - unfold return_book. by rewrite !bind_run, Hg.
Qed.

(** ** Stripping *)

Lemma lstrip_head (l : list ascii) :
  match lstrip l with c :: _ => is_space c = false | [] => True end.
Proof.
  induction l as [|c l IH]; simpl; [done|].
  destruct (is_space c) eqn:Hc; [done|]. by simpl.
Qed.

Lemma lstrip_snoc (l : list ascii) (c : ascii) :
  is_space c = false -> lstrip (l ++ [c]) = lstrip l ++ [c].
Proof.
  intros Hc. induction l as [|d l IH]; simpl; [by rewrite Hc|].
  by destruct (is_space d).
Qed.

Lemma rstrip_cons (c : ascii) (l : list ascii) :
  is_space c = false -> rstrip (c :: l) = c :: rstrip l.
Proof.
  intros Hc. unfold rstrip. simpl. rewrite lstrip_snoc by done.
  by rewrite rev_app_distr.
Qed.

Lemma rstrip_idem (l : list ascii) : rstrip (rstrip l) = rstrip l.
Proof.
  unfold rstrip. rewrite rev_involutive. f_equal.
  apply lstrip_id, lstrip_head.
Qed.

(** Stripping what has been stripped changes nothing. *)
Lemma strip_idem (s : string) : strip (strip s) = strip s.
Proof.
  unfold strip. rewrite chars_text. f_equal.
  pose proof (lstrip_head (chars s)) as Hh.
  destruct (lstrip (chars s)) as [|c l]; [done|].
  rewrite rstrip_cons by done. rewrite lstrip_id by done.
  by rewrite <- rstrip_cons, rstrip_idem by done.
Qed.

(** ** Import of any stream *)

Lemma get_strip_cases (r : gmap string (option string)) (key : string) (st : store) :
  (exists s, get_strip r key st = Ok (strip s) st) \/ get_strip r key st = Raise no_strip st.
Proof.
  unfold get_strip. destruct (default (Some "") (r !! key)) as [s|]; [left; by exists s|by right].
Qed.

Lemma imported_ok_new (t a y i : string) :
  strip t <> "" -> imported_ok (new_book (strip t) (strip a) (parse_year (strip y)) (strip i)).
Proof.
  intros Ht. unfold imported_ok, new_book. simpl. rewrite !strip_idem.
  repeat split; try done. apply year_or_none_nonzero.
Qed.

Lemma import_loop_adds (rs : list (gmap string (option string))) (added : Z) (st : store) :
  exists bs,
    final_store (import_loop rs added st) = append_books st bs /\
    Forall imported_ok bs /\
    forall n st', import_loop rs added st = Ok n st' -> n = added + Z.of_nat (length bs).
Proof.
  revert added st. induction rs as [|r rs IH]; intros added st.
  - exists []. split; [done|]. split; [done|]. intros n st' [= <- _]. simpl. lia.
  - cbn [import_loop]. rewrite bind_run.
    destruct (get_strip_cases r "title" st) as [[t ->]| ->];
      [|exists []; by repeat split].
    case_decide as Ht; [apply IH|].
    rewrite bind_run.
    destruct (get_strip_cases r "author" st) as [[a ->]| ->];
      [|exists []; by repeat split].
    rewrite bind_run.
    destruct (get_strip_cases r "year" st) as [[y ->]| ->];
      [|exists []; by repeat split].
    rewrite bind_run.
    destruct (get_strip_cases r "isbn" st) as [[i ->]| ->];
      [|exists []; by repeat split].
    rewrite bind_run, add_book_run.
    destruct (IH (added + 1)
                (sql_insert (strip t) (strip a) (year_or_none (parse_year (strip y)))
                   (strip i) st)) as (bs & Hst & Hok & Hn).
    exists (new_book (strip t) (strip a) (parse_year (strip y)) (strip i) :: bs).
    split; [exact Hst|]. split; [constructor; [by apply imported_ok_new|done]|].
    intros n st' Hrun. specialize (Hn n st' Hrun). cbn [length]. lia.
Qed.

Lemma import_csv_adds (fileobj : string) (st : store) :
  exists bs,
    final_store (import_csv_fileobj fileobj st) = append_books st bs /\
    Forall imported_ok bs /\
    (forall n st', import_csv_fileobj fileobj st = Ok n st' -> n = Z.of_nat (length bs)) /\
    (forall k b, books st !! k = Some b -> books (append_books st bs) !! k = Some b).
Proof.
  unfold import_csv_fileobj. destruct (csv_reader fileobj) as [rows err].
  destruct (import_loop_adds (dict_reader rows) 0 st) as (bs & Hst & Hok & Hn).
  exists bs. rewrite bind_run.
  destruct (import_loop (dict_reader rows) 0 st) as [n0 st0|e st0] eqn:Hrun.
  - specialize (Hn n0 st0 eq_refl). simpl in Hst.
    split; [by destruct err|]. split; [done|]. split.
    + destruct err; [done|]. intros n st' [= <- _]. lia.
    + intros k b Hk. rewrite append_books_lookup, decide_False; [done|].
      apply next_id_above in Hk. lia.
  - split; [done|]. split; [done|]. split; [done|].
    intros k b Hk. rewrite append_books_lookup, decide_False; [done|].
    apply next_id_above in Hk. lia.
Qed.

(** Whatever the stream, an import only adds: the store it leaves, also
    when it raises, is the store it found with new records after it;
    each new record is available, lent to nobody, has a title that is
    not empty, trimmed texts and a year that is not 0; no row that was
    there is changed; and the count it returns is the number of records
    added. *)
Theorem import_adds_only (fileobj : string) (st : store) :
  exists bs,
    final_store (import_csv_fileobj fileobj st) = append_books st bs /\
    Forall imported_ok bs /\
    (forall n st', import_csv_fileobj fileobj st = Ok n st' -> n = Z.of_nat (length bs)) /\
    (forall k b, books st !! k = Some b -> books (append_books st bs) !! k = Some b).
Proof. apply import_csv_adds. Qed.

(** ** Columns by name *)

Lemma foldl_set_lookup_other {A} (f : A -> string) (g : A -> option string)
    (l : list A) (d : gmap string (option string)) (key : string) :
  Forall (fun x => f x <> key) l ->
  foldl (fun d x => <[f x := g x]> d) d l !! key = d !! key.
Proof.
  intros Hl. revert d. induction Hl as [|x l Hx _ IH]; intros d; simpl; [done|].
  rewrite IH. by rewrite lookup_insert_ne.
Qed.

Lemma dict_of_row_absent (header cells : list string) (key : string) :
  key ∉ header -> dict_of_row header cells !! key = None.
Proof.
  intros Hkey. unfold dict_of_row.
  rewrite (foldl_set_lookup_other (fun k => k) (fun _ => None)).
  - rewrite (foldl_set_lookup_other fst (fun kv => Some kv.2)); [done|].
    apply Forall_forall. intros [k v] Hin Heq. simpl in Heq. subst k.
    apply Hkey. revert cells Hin. induction header as [|h hs IH]; intros cells Hin.
    + by apply elem_of_nil in Hin.
    + destruct cells as [|c cs]; [by apply elem_of_nil in Hin|].
      simpl in Hin. apply elem_of_cons in Hin as [[= -> _]|Hin]; [by left|].
      right. apply (IH (fun H => Hkey (list_elem_of_further _ _ _ H)) cs Hin).
  - apply Forall_forall. intros k Hin <-. apply Hkey.
    apply list_elem_of_lookup in Hin as [j Hj]. rewrite lookup_drop in Hj.
    by eapply list_elem_of_lookup_2.
Qed.

Lemma import_loop_no_title (header : list string) (data : list (list string))
    (added : Z) (st : store) :
  "title" ∉ header ->
  import_loop (map (dict_of_row header) data) added st = Ok added st.
Proof.
  intros Hh. induction data as [|cells data IH]; [done|].
  cbn [map import_loop]. rewrite bind_run. unfold get_strip at 1.
  by rewrite dict_of_row_absent.
Qed.

(** A stream whose header has no column named [title] imports nothing:
    every row counts as one with a blank title, the count is 0 and the
    store is as it was.  So does a stream with no record at all. *)
Theorem import_without_title_column (fileobj : string) (header : list string)
    (data : list (list string)) (st : store) :
  (csv_reader fileobj = ([], None) \/
   (csv_reader fileobj = (header :: data, None) /\ "title" ∉ header)) ->
  import_csv_fileobj fileobj st = Ok 0 st.
Proof.
  unfold import_csv_fileobj. intros [-> | [-> Hh]]; [done|].
  rewrite bind_run. cbn [dict_reader]. by rewrite import_loop_no_title.
Qed.

Lemma import_without_title_column_witness :
  (csv_reader "Title,Author
Dune,Herbert
" = ([], None) \/
   (csv_reader "Title,Author
Dune,Herbert
" = (["Title"; "Author"] :: [["Dune"; "Herbert"]], None) /\ "title" ∉ ["Title"; "Author"])) /\
  import_csv_fileobj "Title,Author
Dune,Herbert
" dune_store = Ok 0 dune_store.
Proof.
  assert (H : csv_reader "Title,Author
Dune,Herbert
" = ([], None) \/
   (csv_reader "Title,Author
Dune,Herbert
" = (["Title"; "Author"] :: [["Dune"; "Herbert"]], None) /\ "title" ∉ ["Title"; "Author"])).
  { right. split; [vm_compute; reflexivity|]. apply (bool_decide_unpack _). vm_compute. exact I. }
  split; [exact H|].
  exact (import_without_title_column _ _ _ dune_store H).
Defined.










(** ** The export as a CSV text *)


(** * The routes *)

Lemma try_flash_run {A} (c : M A) (done : A -> flash) (st : store) :
  try_flash c done st =
  match c st with
  | Ok a st' => Ok (done a) st'
  | Raise e st' => Ok (flash_error (str_exn e)) st'
  end.
Proof. reflexivity. Qed.

(** ** Saving *)

Lemma save_book_run (form : gmap string string) (st : store) :
  save_book form st =
  let t := strip (default "" (form !! "title")) in
  let a := strip (default "" (form !! "author")) in
  let i := strip (default "" (form !! "isbn")) in
  if decide (t = "") then Ok (flash_error "Title is required") st
  else
    match form_year (strip (default "" (form !! "year"))) with
    | None => Ok (flash_error "Year must be a number") st
    | Some y =>
        match truthy (form !! "id") with
        | None => Ok (flash_message "Book added") (append_books st [new_book t a y i])
        | Some id =>
            match find_book st (form_id id) with
            | Some (k, b0) =>
                Ok (flash_message "Book updated")
                   (set_row k (updated_book t a y i (Some (status b0)) (issued_to b0)) st)
            | None => Ok (flash_message "Book updated") st
            end
        end
    end.
Proof.
  unfold save_book. cbv zeta. case_decide; [done|].
  destruct (form_year _) as [y|]; [|done].
  destruct (truthy (form !! "id")) as [id|]; [|by rewrite bind_run, add_book_run].
  rewrite bind_run, get_book_find.
  destruct (find_book st (form_id id)) as [[k b0]|] eqn:Hf.
  - apply find_book_Some in Hf as [Hid Hb].
    rewrite bind_run. unfold update_book. rewrite Hid, bind_run. simpl.
    unfold put_store. by rewrite (sql_update_present _ _ b0).
  - apply find_book_None in Hf. rewrite bind_run.
    by destruct (update_delete_missing_noop_aux st (form_id id)
                   (strip (default "" (form !! "title")))
                   (strip (default "" (form !! "author"))) y
                   (strip (default "" (form !! "isbn")))
                   (Some "available") None Hf) as [-> _].
Qed.

(** [save_book] turns down a form whose title is blank, and then one
    whose year is not an integer, with the message of the case, and
    leaves the store as it was. *)
Theorem save_book_rejects (form : gmap string string) (st : store) :
  strip (default "" (form !! "title")) = "" \/
    form_year (strip (default "" (form !! "year"))) = None ->
  save_book form st =
  Ok (flash_error (if decide (strip (default "" (form !! "title")) = "")
                   then "Title is required" else "Year must be a number")) st.
Proof.
  intros H. rewrite save_book_run. cbv zeta. case_decide; [done|].
  destruct H as [?|Hy]; [done|]. by rewrite Hy.
Qed.

Lemma save_book_rejects_witness :
  (strip (default "" (blank_form !! "title")) = "" \/
     form_year (strip (default "" (blank_form !! "year"))) = None) /\
  save_book blank_form dune_store = Ok (flash_error "Title is required") dune_store.
Proof.
  assert (H : strip (default "" (blank_form !! "title")) = "" \/
     form_year (strip (default "" (blank_form !! "year"))) = None)
    by (left; vm_compute; reflexivity).
  split; [exact H|].
  exact (save_book_rejects blank_form dune_store H).
Defined.



(** ** Lending through the routes *)







(** ** The index page *)


(** ** Uploading *)

Lemma after_last_dot_none (l : list ascii) :
  Forall (fun c => c <> "."%char) l -> after_last_dot l = None.
Proof.
  induction 1 as [|c l Hc _ IH]; simpl; [done|].
  rewrite IH. by rewrite (proj2 (Ascii.eqb_neq c "."%char)).
Qed.

Lemma after_last_dot_app (l e : list ascii) :
  Forall (fun c => c <> "."%char) e -> after_last_dot (l ++ "."%char :: e) = Some e.
Proof.
  intros He. induction l as [|c l IH]; simpl.
  - by rewrite after_last_dot_none.
  - by rewrite IH.
Qed.

(** The extension the import route looks at is what follows the last
    dot of the name, in lower case; a name without a dot has none. *)
Theorem extension_last_dot (base e : string) :
  Forall (fun c => c <> "."%char) (chars e) ->
  extension (base +:+ "." +:+ e) = text (map py_lower (chars e)) /\
  extension e = "".
Proof.
  intros He. unfold extension. split.
  - rewrite chars_app. change (chars ("." +:+ e)) with ("."%char :: chars e).
    by rewrite after_last_dot_app.
  - by rewrite after_last_dot_none.
Qed.

Lemma extension_last_dot_witness :
  Forall (fun c => c <> "."%char) (chars "CSV") /\
  extension ("books.2024" +:+ "." +:+ "CSV") = "csv" /\ extension "CSV" = "".
Proof.
  assert (H : Forall (fun c => c <> "."%char) (chars "CSV"))
    by (apply (bool_decide_unpack _); vm_compute; exact I).
  split; [exact H|].
  exact (extension_last_dot "books.2024" "CSV" H).
Defined.

Lemma import_csv_run (secure_filename : string -> string) (file : option upload)
    (st : store) :
  exists fl bs,
    import_csv secure_filename file st = Ok fl (append_books st bs) /\
    Forall imported_ok bs /\
    (bs <> [] ->
     exists f, file = Some f /\ filename f <> "" /\
               extension (secure_filename (filename f)) = "csv").
Proof.
  unfold import_csv. destruct file as [f|]; [|by eexists _, []].
  case_decide; [by eexists _, []|].
  case_decide; [|by eexists _, []].
  destruct (import_csv_adds (stream f) st) as (bs & Hst & Hok & _).
  rewrite try_flash_run.
  destruct (import_csv_fileobj (stream f) st) as [n st'|e st']; simpl in Hst; subst st';
    eexists _, bs; (split; [done|]); (split; [done|]); intros _; by exists f.
Qed.

(** The import route never raises and only adds records: the store it
    leaves is the store it found with new records after it, each of
    them as an import writes it; and it adds none unless a file was
    uploaded whose name is not empty and, once secured, has the
    extension csv. *)
Theorem import_route_adds_only (secure_filename : string -> string) (file : option upload)
    (st : store) :
  exists fl bs,
    import_csv secure_filename file st = Ok fl (append_books st bs) /\
    Forall imported_ok bs /\
    (bs <> [] ->
     exists f, file = Some f /\ filename f <> "" /\
               extension (secure_filename (filename f)) = "csv").
Proof. apply import_csv_run. Qed.

(** ** What the routes keep *)












(** * What an import can raise *)








(** * The search without wildcards *)

